(** * nuxt-client-error: the [errorStatus] classifier

    A shallow embedding of [src/errorStatus.ts].  The getter that
    [errorStatus] hands to Vue's [computed] is modelled as a computation in a
    small state-and-exception monad: the two injected callbacks (the
    translation function [t] and the optional [customError] handler) are
    host code that may read and change the host world and may throw, and
    the [try]/[catch] of the source is the monad's [try_catch].  Every call
    of a callback and every line written to the console is journalled, so
    that what an evaluation did not do can be stated.

    Strings are sequences of bytes (the UTF-8 form of the JavaScript
    string); the texts the classifier searches for are ASCII, and an ASCII
    text occurs in a string exactly when it occurs in its UTF-8 form. *)

From Stdlib Require Import ZArith List Bool Ascii String Lia.
From Stdlib Require Import DecimalString.
Import ListNotations.

Local Open Scope string_scope.
Local Open Scope Z_scope.

(** ** JavaScript values the classifier looks at *)

(** A JavaScript number, as far as the classifier can tell numbers apart:
    it tests truthiness, compares with the status codes and renders the
    number with [Number.prototype.toString].  [NInt z] is the safe integer
    [z] (see [safe_integer]), whose rendering is its decimal expansion;
    [NOther repr] is any other finite number, a fraction or an integer past
    [MAX_SAFE_INTEGER], identified by the text [toString] gives for it. *)
Inductive JsNumber : Type :=
| NInt (z : Z)
| NNegZero
| NNaN
| NInfinity (negative : bool)
| NOther (repr : string).

(** [Error | string | number | null | undefined], the type of [error.value]. *)
Inductive ErrorValue : Type :=
| VNull
| VUndefined
| VString (s : string)
| VNumber (n : JsNumber)
| VError (message : string).

(** [ErrorStatusOptions]: both fields are optional booleans. *)
Record ErrorStatusOptions : Type := mkOptions {
  debug : option bool;
  serverOnly : option bool
}.

(** What a [throw] carries, as far as the [catch] block reads it:
    [(error as Error)?.message]. *)
Inductive Thrown : Type :=
| ThrownError (message : string)
| ThrownTypeError (message : string)
| ThrownValue.

Definition thrown_message (e : Thrown) : option string :=
  match e with
  | ThrownError m => Some m
  | ThrownTypeError m => Some m
  | ThrownValue => None
  end.

(** ** Strings *)

(** [String.prototype.includes(search)] from position 0. *)
Fixpoint includes (search s : string) : bool :=
  if String.prefix search s then true
  else match s with
       | EmptyString => false
       | String _ rest => includes search rest
       end.

(** Decimal rendering of an integer, ["-"] in front of a negative one. *)
Definition decimal (z : Z) : string :=
  NilZero.string_of_int (Z.to_int z).

(** [Number.MAX_SAFE_INTEGER], 2^53 - 1. *)
Definition MAX_SAFE_INTEGER : Z := 9007199254740991.

(** [Number.isSafeInteger]: the integers [NInt] stands for.  Past them a
    number prints rounded digits, and from 1e21 on in exponent form. *)
Definition safe_integer (z : Z) : bool := Z.abs z <=? MAX_SAFE_INTEGER.

(** [Number.prototype.toString()] with the default radix; on [NInt z] it is
    the rendering of JavaScript for [safe_integer z] only. *)
Definition toString (n : JsNumber) : string :=
  match n with
  | NInt z => decimal z
  | NNegZero => "0"
  | NNaN => "NaN"
  | NInfinity false => "Infinity"
  | NInfinity true => "-Infinity"
  | NOther repr => repr
  end.

(** The SameValueZero comparison of [Array.prototype.includes]. *)
Definition same_value_zero (a b : JsNumber) : bool :=
  match a, b with
  | NInt x, NInt y => x =? y
  | NInt x, NNegZero => x =? 0
  | NNegZero, NInt y => y =? 0
  | NNegZero, NNegZero => true
  | NNaN, NNaN => true
  | NInfinity x, NInfinity y => Bool.eqb x y
  | NOther x, NOther y => String.eqb x y
  | _, _ => false
  end.

Definition array_includes (xs : list Z) (n : JsNumber) : bool :=
  existsb (fun c => same_value_zero (NInt c) n) xs.

(** JavaScript truthiness of [error.value]. *)
Definition truthy (v : ErrorValue) : bool :=
  match v with
  | VNull => false
  | VUndefined => false
  | VString s => negb (String.eqb s EmptyString)
  | VNumber (NInt z) => negb (z =? 0)
  | VNumber NNegZero => false
  | VNumber NNaN => false
  | VNumber (NInfinity _) => true
  | VNumber (NOther _) => true
  | VError _ => true
  end.

(** ** The execution context probed by [isServer] *)

(** The [server] property of the [process] global. *)
Inductive ServerProp : Type :=
| ServerMissing
| ServerTrue
| ServerOtherValue.

(** The [process] global: not there, [null], or an object. *)
Inductive ProcessGlobal : Type :=
| ProcessUndefined
| ProcessNull
| ProcessObject (server : ServerProp).

Record Globals : Type := mkGlobals {
  process : ProcessGlobal;
  window_defined : bool
}.

Definition process_declared (p : ProcessGlobal) : bool :=
  match p with ProcessUndefined => false | _ => true end.

Definition process_truthy (p : ProcessGlobal) : bool :=
  match p with ProcessObject _ => true | _ => false end.

Definition server_in_process (p : ProcessGlobal) : bool :=
  match p with
  | ProcessObject ServerMissing => false
  | ProcessObject _ => true
  | _ => false
  end.

Definition process_server_is_true (p : ProcessGlobal) : bool :=
  match p with ProcessObject ServerTrue => true | _ => false end.

Definition isServer (g : Globals) : bool :=
  (process_declared (process g)
   && process_truthy (process g)
   && server_in_process (process g)
   && process_server_is_true (process g))
  || negb (window_defined g).

(** Truthiness of an optional boolean option field. *)
Definition flag_set (flag : option bool) : bool :=
  match flag with Some true => true | _ => false end.

Definition logOption (options : option ErrorStatusOptions) (g : Globals) : bool :=
  match options with
  | None => false
  | Some o =>
      if negb (flag_set (debug o)) then false
      else if negb (flag_set (serverOnly o)) then true
      else isServer g
  end.

(** ** Effects: host calls, console output, exceptions *)

Inductive Completion (A : Type) : Type :=
| Normal (a : A)
| Abrupt (e : Thrown).
Arguments Normal {A} a.
Arguments Abrupt {A} e.

(** What an evaluation did that the outside can observe, in order. *)
Inductive Event : Type :=
| CalledT (key : string)
| CalledCustomError (v : ErrorValue)
| ConsoleWarn (msg : string)
| ConsoleError (label : string) (msg : option string).

Definition httpStatusCodes : list Z :=
  [400; 401; 403; 404; 408; 429; 500; 502; 503; 504].

Section Classifier.

(** The host world the callbacks live in, and the globals [isServer]
    reads from it. *)
Variable World : Type.
Variable globals : World -> Globals.

Record State : Type := mkState {
  host : World;
  journal : list Event
}.

Definition M (A : Type) : Type := State -> State * Completion A.

Definition ret {A} (a : A) : M A := fun s => (s, Normal a).

Definition bind {A B} (m : M A) (k : A -> M B) : M B :=
  fun s =>
    match m s with
    | (s1, Normal a) => k a s1
    | (s1, Abrupt e) => (s1, Abrupt e)
    end.

Definition try_catch {A} (body : M A) (handler : Thrown -> M A) : M A :=
  fun s =>
    match body s with
    | (s1, Normal a) => (s1, Normal a)
    | (s1, Abrupt e) => handler e s1
    end.

Definition emit (ev : Event) : M unit :=
  fun s => (mkState (host s) (journal s ++ [ev]), Normal tt).

Definition when (b : State -> bool) (m : M unit) : M unit :=
  fun s => if b s then m s else (s, Normal tt).

Definition Translate : Type := string -> World -> World * Completion string.
Definition CustomError : Type :=
  ErrorValue -> World -> World * Completion (option string).

(** Calling [t(key)]; calling an absent [t] is a [TypeError]. *)
Definition call_t (t : option Translate) (key : string) : M string :=
  fun s =>
    match t with
    | None => (s, Abrupt (ThrownTypeError "t is not a function"))
    | Some f =>
        let (w, r) := f key (host s) in
        (mkState w (journal s ++ [CalledT key]), r)
    end.

Definition call_customError (f : CustomError) (v : ErrorValue)
  : M (option string) :=
  fun s =>
    let (w, r) := f v (host s) in
    (mkState w (journal s ++ [CalledCustomError v]), r).

Definition logging (options : option ErrorStatusOptions) (s : State) : bool :=
  logOption options (globals (host s)).

Declare Scope js_scope.
Notation "x <- m ;; k" := (bind m (fun x => k))
  (at level 61, m at next level, right associativity) : js_scope.
Notation "m ;; k" := (bind m (fun _ => k))
  (at level 61, right associativity) : js_scope.
Local Open Scope js_scope.

Definition extract_message (value : ErrorValue) : string :=
  match value with
  | VString s => s
  | VError message => message
  | VNumber n => toString n
  | _ => EmptyString
  end.

(** [typeof error.value === "number" && httpStatusCodes.includes(error.value)],
    with the number the test narrows [error.value] to. *)
Definition known_number (value : ErrorValue) : option JsNumber :=
  match value with
  | VNumber n => if array_includes httpStatusCodes n then Some n else None
  | _ => None
  end.

(** The [for (const code of httpStatusCodes)] loop; [Some r] when the
    loop body returned [r]. *)
Fixpoint scan_codes (t : option Translate) (errorMessage : string)
         (codes : list Z) : M (option string) :=
  match codes with
  | [] => ret None
  | code :: rest =>
      if includes (decimal code) errorMessage then
        r <- call_t t ("errStatus." ++ decimal code) ;; ret (Some r)
      else scan_codes t errorMessage rest
  end.

(** The [if (customError)] block at the end of the chain. *)
Definition custom_check (value : ErrorValue) (customError : option CustomError)
  : M (option string) :=
  match customError with
  | Some f =>
      customMessage <- call_customError f value ;;
      match customMessage with
      | Some msg =>
          if String.eqb msg EmptyString then ret None else ret (Some msg)
      | None => ret None
      end
  | None => ret None
  end.

(** The block under [if (error.value)]; [Some r] when it returned [r],
    [None] when control falls out of it. *)
Definition classify (value : ErrorValue) (t : option Translate)
           (customError : option CustomError) : M (option string) :=
  let errorMessage := extract_message value in
  if includes "aborted" errorMessage then
    r <- call_t t "errStatus.abortError" ;; ret (Some r)
  else if includes "timeout" errorMessage then
    r <- call_t t "errStatus.408" ;; ret (Some r)
  else
    match known_number value with
    | Some n => r <- call_t t ("errStatus." ++ toString n) ;; ret (Some r)
    | None =>
        found <- scan_codes t errorMessage httpStatusCodes ;;
        match found with
        | Some r => ret (Some r)
        | None => custom_check value customError
        end
    end.

Definition errorStatus_try (error : option ErrorValue) (t : option Translate)
           (customError : option CustomError)
           (options : option ErrorStatusOptions) : M string :=
  match error, t with
  | Some value, Some _ =>
      returned <-
        (if truthy value then classify value t customError else ret None) ;;
      match returned with
      | Some r => ret r
      | None => call_t t "errStatus.defaultStatusError"
      end
  | _, _ =>
      when (logging options)
           (emit (ConsoleWarn "errorStatus: Missing required parameters.")) ;;
      call_t t "errStatus.missingParameters"
  end.

Definition errorStatus_catch (t : option Translate)
           (options : option ErrorStatusOptions) (e : Thrown) : M string :=
  when (logging options) (emit (ConsoleError "Error:" (thrown_message e))) ;;
  call_t t "errStatus.unexpectedError".

(** The getter passed to [computed]: [error] is [None] when no holder was
    passed, [Some v] for a ref holding [v]. *)
Definition errorStatus (error : option ErrorValue) (t : option Translate)
           (customError : option CustomError)
           (options : option ErrorStatusOptions) : M string :=
  try_catch (errorStatus_try error t customError options)
            (errorStatus_catch t options).

End Classifier.

Arguments host {World} s.
Arguments journal {World} s.
Arguments mkState {World} host journal.

Arguments ret {World A} a.
Arguments bind {World A B} m k.
Arguments try_catch {World A} body handler.
Arguments call_t {World} t key.
Arguments call_customError {World} f v.
Arguments custom_check {World} value customError.
Arguments scan_codes {World} t errorMessage codes.
Arguments classify {World} value t customError.
Arguments errorStatus_try {World} globals error t customError options.
Arguments errorStatus_catch {World} globals t options e.
Arguments errorStatus {World} globals error t customError options.

(** ** Sample hosts *)

(** A browser page of a Nuxt application, and the server side of one. *)
Definition browser : Globals := mkGlobals (ProcessObject ServerOtherValue) true.
Definition nuxt_server : Globals := mkGlobals (ProcessObject ServerTrue) false.

(** A host world with nothing in it but the globals. *)
Definition on_browser : unit -> Globals := fun _ => browser.
Definition on_server : unit -> Globals := fun _ => nuxt_server.

Definition start : State unit := mkState tt [].

(** A translation function that answers every key with the key itself. *)
Definition t_key : Translate unit := fun key w => (w, Normal key).

(** A translation function that throws whenever it is called. *)
Definition t_faulty : Translate unit :=
  fun _ w => (w, Abrupt (ThrownError "translate failed")).

(** A translation function that knows every key but one. *)
Definition t_without (missing : string) : Translate unit :=
  fun key w =>
    if String.eqb key missing then (w, Abrupt (ThrownError "unknown key"))
    else (w, Normal key).

(** The custom handler of the README: [err.message.includes("Custom")],
    which throws on a string or a number, whose [message] is [undefined];
    the text of the [TypeError] is the one Node and Chrome give. *)
Definition readme_customError : CustomError unit :=
  fun err w =>
    match err with
    | VNull | VUndefined => (w, Normal None)
    | VError message =>
        if includes "Custom" message
        then (w, Normal (Some "This is a custom error"))
        else (w, Normal None)
    | VString s =>
        if String.eqb s EmptyString then (w, Normal None)
        else (w, Abrupt
                   (ThrownTypeError
                      "Cannot read properties of undefined (reading 'includes')"))
    | VNumber n =>
        if truthy (VNumber n)
        then (w, Abrupt
                   (ThrownTypeError
                      "Cannot read properties of undefined (reading 'includes')"))
        else (w, Normal None)
    end.

(** A custom handler with an opinion on everything. *)
Definition always_custom : CustomError unit :=
  fun _ w => (w, Normal (Some "custom")).

Definition debug_everywhere : ErrorStatusOptions := mkOptions (Some true) None.
Definition debug_on_server : ErrorStatusOptions := mkOptions (Some true) (Some true).

(** ** The earlier revision of the getter *)

Section Legacy.

Variable World : Type.

Local Notation "m ;; k" := (bind m (fun _ => k))
  (at level 61, right associativity).
Local Notation "x <- m ;; k" := (bind m (fun x => k))
  (at level 61, m at next level, right associativity).

(** The revision of [errorStatus] without the [options] parameter: the same
    chain, with a console line at every place where the current one asks
    [logOption] first. *)
Definition errorStatus_legacy_try (error : option ErrorValue)
           (t : option (Translate World))
           (customError : option (CustomError World)) : M World string :=
  match error, t with
  | Some value, Some _ =>
      returned <-
        (if truthy value then classify value t customError else ret None) ;;
      match returned with
      | Some r => ret r
      | None => call_t t "errStatus.defaultStatusError"
      end
  | _, _ =>
      emit World (ConsoleWarn "errorStatus: Missing required parameters.") ;;
      call_t t "errStatus.missingParameters"
  end.

Definition errorStatus_legacy_catch (t : option (Translate World))
           (e : Thrown) : M World string :=
  emit World (ConsoleError "Error:" (thrown_message e)) ;;
  call_t t "errStatus.unexpectedError".

Definition errorStatus_legacy (error : option ErrorValue)
           (t : option (Translate World))
           (customError : option (CustomError World)) : M World string :=
  try_catch (errorStatus_legacy_try error t customError)
            (errorStatus_legacy_catch t).

End Legacy.

Arguments errorStatus_legacy {World} error t customError.

(** ** The message catalogue *)

(** The keys the README asks the host's i18n catalogue to define, under
    [errStatus]. *)
Definition required_keys : list string :=
  ["errStatus.missingParameters"; "errStatus.abortError";
   "errStatus.defaultStatusError"; "errStatus.unexpectedError";
   "errStatus.400"; "errStatus.401"; "errStatus.403"; "errStatus.404";
   "errStatus.408"; "errStatus.429"; "errStatus.500"; "errStatus.502";
   "errStatus.503"; "errStatus.504"].

(** ** Reading the journal *)

Definition is_console (ev : Event) : bool :=
  match ev with
  | ConsoleWarn _ | ConsoleError _ _ => true
  | _ => false
  end.

Section Observations.

Variable World : Type.

(** From [s] to the outcome [out] the journal only grew, and by events that
    are all [allowed]. *)
Definition appends {A} (allowed : Event -> Prop) (s : State World)
           (out : State World * Completion A) : Prop :=
  exists evs, journal (fst out) = (journal s ++ evs)%list
              /\ Forall allowed evs.

Definition emits {A} (allowed : Event -> Prop) (m : M World A) : Prop :=
  forall s, appends allowed s (m s).

(** Two runs that end in the same host world with the same completion. *)
Definition same_outcome {A} (out out' : State World * Completion A) : Prop :=
  host (fst out) = host (fst out') /\ snd out = snd out'.

(** Two computations that, from the same host world, differ at most in
    what they write to the journal. *)
Definition journal_blind {A} (m m' : M World A) : Prop :=
  forall s s', host s = host s' -> same_outcome (m s) (m' s').

End Observations.

Arguments appends {World A} allowed s out.
Arguments emits {World A} allowed m.
Arguments same_outcome {World A} out out'.
Arguments journal_blind {World A} m m'.

(** ** Substring search *)

Lemma prefix_app : forall search s,
  String.prefix search s = true <-> exists rest, s = search ++ rest.
Proof.
  induction search as [|a search IH]; intros s.
  - split; [intros _; exists s; reflexivity | intros _; destruct s; reflexivity].
  - destruct s as [|b s]; simpl.
    + split; [discriminate | intros [rest H]; discriminate].
    + destruct (Ascii.ascii_dec a b) as [->|Hab].
      * rewrite IH. split; intros [rest H]; exists rest.
        -- now rewrite H.
        -- now injection H.
      * split; [discriminate | intros [rest H]; injection H; congruence].
Qed.

Lemma includes_nil : forall search,
  includes search EmptyString = String.prefix search EmptyString.
Proof. intros search; now destruct search. Qed.

Lemma includes_cons : forall search c s,
  includes search (String c s)
  = String.prefix search (String c s) || includes search s.
Proof.
  intros search c s.
  change (includes search (String c s))
    with (if String.prefix search (String c s) then true else includes search s).
  now destruct (String.prefix search (String c s)).
Qed.

(** [includes] finds exactly the strings that occur somewhere in [s]. *)
Lemma includes_occurs : forall search s,
  includes search s = true <-> exists before rest, s = before ++ search ++ rest.
Proof.
  intros search s; induction s as [|c s IH].
  - rewrite includes_nil, prefix_app. split.
    + intros [rest H]. now exists EmptyString, rest.
    + intros [before [rest H]]. destruct before; [eauto | discriminate].
  - rewrite includes_cons, orb_true_iff, prefix_app, IH. split.
    + intros [[rest H] | [before [rest H]]].
      * now exists EmptyString, rest.
      * exists (String c before), rest. simpl. now rewrite H.
    + intros [before [rest H]]. destruct before as [|b before]; simpl in H.
      * left. eauto.
      * right. injection H as _ H. eauto.
Qed.

Lemma includes_empty_subject : forall search,
  includes search EmptyString = true -> search = EmptyString.
Proof.
  intros search H. destruct search; [reflexivity | discriminate].
Qed.

(** Every status code is a non-zero integer with a three-digit rendering. *)
Lemma known_code_cases : forall c,
  In c httpStatusCodes ->
  c = 400 \/ c = 401 \/ c = 403 \/ c = 404 \/ c = 408 \/ c = 429 \/
  c = 500 \/ c = 502 \/ c = 503 \/ c = 504.
Proof.
  unfold httpStatusCodes; simpl; intros c H.
  repeat (destruct H as [H|H]; [symmetry in H; tauto|]). contradiction.
Qed.

Lemma decimal_code_nonempty : forall c,
  In c httpStatusCodes -> decimal c <> EmptyString.
Proof.
  intros c H. apply known_code_cases in H.
  repeat (destruct H as [H|H]; [subst c; discriminate|]).
  subst c; discriminate.
Qed.

(** ** The classifier *)

Section ClassifierFacts.

Variable World : Type.
Variable globals : World -> Globals.

Implicit Types (s : State World) (t : Translate World)
         (customError : option (CustomError World))
         (options : option ErrorStatusOptions) (value : ErrorValue).

(** A call of [t] that returns: the call is journalled, the host moves on. *)
Lemma call_t_returns : forall t key s w r,
  t key (host s) = (w, Normal r) ->
  call_t (Some t) key s = (mkState w (journal s ++ [CalledT key]), Normal r).
Proof.
  intros t key s w r H. unfold call_t. now rewrite H.
Qed.

Lemma call_t_then_some : forall t key s w r,
  t key (host s) = (w, Normal r) ->
  bind (call_t (Some t) key) (fun r => ret (Some r)) s
  = (mkState w (journal s ++ [CalledT key]), Normal (Some r)).
Proof.
  intros t key s w r H. unfold bind. now rewrite (call_t_returns _ _ _ _ _ H).
Qed.

(** The loop stops at the first code whose rendering occurs in the message. *)
Lemma scan_codes_first : forall t msg before code rest s,
  (forall c, In c before -> includes (decimal c) msg = false) ->
  includes (decimal code) msg = true ->
  scan_codes (Some t) msg (before ++ code :: rest) s
  = bind (call_t (Some t) ("errStatus." ++ decimal code))
         (fun r => ret (Some r)) s.
Proof.
  intros t msg before code rest s Hbefore Hcode.
  induction before as [|b before IH]; simpl.
  - now rewrite Hcode.
  - rewrite (Hbefore b) by (now left).
    apply IH. intros c Hc. apply Hbefore. now right.
Qed.

Lemma scan_codes_nothing : forall (t : option (Translate World)) msg codes s,
  (forall c, In c codes -> includes (decimal c) msg = false) ->
  scan_codes t msg codes s = (s, Normal None).
Proof.
  intros t msg codes s Hnone.
  induction codes as [|c codes IH]; simpl.
  - reflexivity.
  - rewrite (Hnone c) by (now left).
    apply IH. intros c' Hc'. apply Hnone. now right.
Qed.

(** How the getter finishes once the [if (error.value)] block is known. *)
Lemma errorStatus_block_returned : forall value t customError options s s1 r,
  truthy value = true ->
  classify value (Some t) customError s = (s1, Normal (Some r)) ->
  errorStatus globals (Some value) (Some t) customError options s
  = (s1, Normal r).
Proof.
  intros value t customError options s s1 r Htruthy Hblock.
  unfold errorStatus, try_catch, errorStatus_try, bind.
  now rewrite Htruthy, Hblock.
Qed.

Lemma errorStatus_block_fell_through :
  forall value t customError options s s1 w r,
  truthy value = true ->
  classify value (Some t) customError s = (s1, Normal None) ->
  t "errStatus.defaultStatusError" (host s1) = (w, Normal r) ->
  errorStatus globals (Some value) (Some t) customError options s
  = (mkState w (journal s1 ++ [CalledT "errStatus.defaultStatusError"]),
     Normal r).
Proof.
  intros value t customError options s s1 w r Htruthy Hblock Ht.
  unfold errorStatus, try_catch, errorStatus_try, bind.
  rewrite Htruthy, Hblock.
  now rewrite (call_t_returns _ _ _ _ _ Ht).
Qed.

Lemma errorStatus_block_skipped : forall value t customError options s w r,
  truthy value = false ->
  t "errStatus.defaultStatusError" (host s) = (w, Normal r) ->
  errorStatus globals (Some value) (Some t) customError options s
  = (mkState w (journal s ++ [CalledT "errStatus.defaultStatusError"]),
     Normal r).
Proof.
  intros value t customError options s w r Hfalsy Ht.
  unfold errorStatus, try_catch, errorStatus_try, bind.
  rewrite Hfalsy. unfold ret.
  now rewrite (call_t_returns _ _ _ _ _ Ht).
Qed.

(** A message in which something occurs is not the empty string. *)
Lemma includes_truthy : forall search msg,
  search <> EmptyString -> includes search msg = true ->
  truthy (VString msg) = true.
Proof.
  intros search msg Hne Hin. destruct msg; simpl.
  - apply includes_empty_subject in Hin. contradiction.
  - reflexivity.
Qed.

(** The special texts and the code scan look at the extracted message of any
    non-empty error value, a string or not. *)
Lemma aborted_message : forall value t customError options s w r,
  truthy value = true ->
  includes "aborted" (extract_message value) = true ->
  t "errStatus.abortError" (host s) = (w, Normal r) ->
  errorStatus globals (Some value) (Some t) customError options s
  = (mkState w (journal s ++ [CalledT "errStatus.abortError"]), Normal r).
Proof.
  intros value t customError options s w r Htruthy Hab Ht.
  apply errorStatus_block_returned; [assumption|].
  unfold classify. rewrite Hab. now apply call_t_then_some.
Qed.

Lemma timeout_message : forall value t customError options s w r,
  truthy value = true ->
  includes "aborted" (extract_message value) = false ->
  includes "timeout" (extract_message value) = true ->
  t "errStatus.408" (host s) = (w, Normal r) ->
  errorStatus globals (Some value) (Some t) customError options s
  = (mkState w (journal s ++ [CalledT "errStatus.408"]), Normal r).
Proof.
  intros value t customError options s w r Htruthy Hab Hto Ht.
  apply errorStatus_block_returned; [assumption|].
  unfold classify. rewrite Hab, Hto. now apply call_t_then_some.
Qed.

(** C2.  With no error holder and a translation function that is there, the
    classifier returns what [t] returns for ["errStatus.missingParameters"]:
    it warns if the logging gate is open, calls [t] once, and neither reads
    an error value nor calls the custom handler. *)
Theorem missing_holder_missingParameters :
  forall t customError options s w r,
  t "errStatus.missingParameters" (host s) = (w, Normal r) ->
  errorStatus globals None (Some t) customError options s
  = (mkState w
       (journal s
        ++ (if logOption options (globals (host s))
            then [ConsoleWarn "errorStatus: Missing required parameters."]
            else [])
        ++ [CalledT "errStatus.missingParameters"]),
     Normal r).
Proof.
  intros t customError options s w r Ht.
  unfold errorStatus, try_catch, errorStatus_try, bind, when, logging, emit.
  destruct (logOption options (globals (host s))).
  - unfold call_t; cbn [host journal]. rewrite Ht. now rewrite <- app_assoc.
  - unfold call_t. now rewrite Ht.
Qed.

(** C3.  For a string that contains neither "aborted" nor "timeout", the
    result is what [t] returns for ["errStatus.<code>"], where [code] is the
    first code of [httpStatusCodes], in the listed order, whose decimal
    rendering occurs in the string. *)
Theorem string_first_code_wins :
  forall msg before code rest t customError options s w r,
  includes "aborted" msg = false ->
  includes "timeout" msg = false ->
  httpStatusCodes = (before ++ code :: rest)%list ->
  (forall c, In c before -> includes (decimal c) msg = false) ->
  includes (decimal code) msg = true ->
  t ("errStatus." ++ decimal code) (host s) = (w, Normal r) ->
  errorStatus globals (Some (VString msg)) (Some t) customError options s
  = (mkState w (journal s ++ [CalledT ("errStatus." ++ decimal code)]),
     Normal r).
Proof.
  intros msg before code rest t customError options s w r
         Hab Hto Hsplit Hbefore Hcode Ht.
  assert (Hknown : In code httpStatusCodes)
    by (rewrite Hsplit; apply in_elt).
  apply errorStatus_block_returned.
  - eapply includes_truthy; [|exact Hcode].
    now apply decimal_code_nonempty.
  - unfold classify. cbn [extract_message known_number].
    rewrite Hab, Hto. unfold bind at 1.
    rewrite Hsplit, (scan_codes_first _ _ _ _ _ _ Hbefore Hcode).
    now rewrite (call_t_then_some _ _ _ _ _ Ht).
Qed.

(** C4.  A string in which "aborted" occurs gives what [t] returns for
    ["errStatus.abortError"], whatever digits the string has and whatever
    custom handler was passed; the custom handler is not called. *)
Theorem aborted_string_abortError :
  forall msg t customError options s w r,
  includes "aborted" msg = true ->
  t "errStatus.abortError" (host s) = (w, Normal r) ->
  errorStatus globals (Some (VString msg)) (Some t) customError options s
  = (mkState w (journal s ++ [CalledT "errStatus.abortError"]), Normal r).
Proof.
  intros msg t customError options s w r Hab Ht.
  apply aborted_message; try assumption.
  eapply includes_truthy; [|exact Hab]. discriminate.
Qed.

(** C5.  A string in which "timeout" occurs and "aborted" does not gives
    what [t] returns for ["errStatus.408"]. *)
Theorem timeout_string_408 :
  forall msg t customError options s w r,
  includes "timeout" msg = true ->
  includes "aborted" msg = false ->
  t "errStatus.408" (host s) = (w, Normal r) ->
  errorStatus globals (Some (VString msg)) (Some t) customError options s
  = (mkState w (journal s ++ [CalledT "errStatus.408"]), Normal r).
Proof.
  intros msg t customError options s w r Hto Hab Ht.
  apply timeout_message; try assumption.
  eapply includes_truthy; [|exact Hto]. discriminate.
Qed.

(** C6.  A number equal to one of the ten status codes gives what [t]
    returns for ["errStatus.<code>"]. *)
Theorem known_number_code :
  forall code t customError options s w r,
  In code httpStatusCodes ->
  t ("errStatus." ++ decimal code) (host s) = (w, Normal r) ->
  errorStatus globals (Some (VNumber (NInt code))) (Some t) customError
              options s
  = (mkState w (journal s ++ [CalledT ("errStatus." ++ decimal code)]),
     Normal r).
Proof.
  intros code t customError options s w r Hknown Ht.
  apply known_code_cases in Hknown.
  apply errorStatus_block_returned.
  - repeat (destruct Hknown as [Hknown|Hknown]; [now subst code|]).
    now subst code.
  - rewrite <- (call_t_then_some _ _ _ _ _ Ht).
    repeat (destruct Hknown as [Hknown|Hknown]; [subst code; reflexivity|]).
    subst code; reflexivity.
Qed.

Lemma prefix_self : forall x, String.prefix x x = true.
Proof.
  intros x. apply prefix_app. exists EmptyString.
  induction x; simpl; congruence.
Qed.

Lemma includes_self : forall x, includes x x = true.
Proof.
  intros x. destruct x as [|c x].
  - reflexivity.
  - rewrite includes_cons, prefix_self. reflexivity.
Qed.

(** A number that equals a status code has that code in its rendering, so a
    message without any code in it is not such a number. *)
Lemma known_number_in_message : forall value n,
  known_number value = Some n ->
  exists c, In c httpStatusCodes
            /\ includes (decimal c) (extract_message value) = true.
Proof.
  intros value n H. destruct value as [| |msg|m|msg]; try discriminate.
  cbn [known_number] in H.
  destruct (array_includes httpStatusCodes m) eqn:Hin; [|discriminate].
  apply existsb_exists in Hin. destruct Hin as [c [Hc Hsame]].
  exists c. split; [exact Hc|].
  apply known_code_cases in Hc.
  destruct m as [z| | |neg|repr]; cbn [same_value_zero] in Hsame;
    try discriminate.
  - apply Z.eqb_eq in Hsame. subst z. apply includes_self.
  - apply Z.eqb_eq in Hsame. subst c. reflexivity.
Qed.

(** C7.  For a non-empty error value whose message has none of the special
    texts and none of the status codes: a custom handler that returns a
    non-empty string decides the result, and [t] is not called; with no
    custom handler, or one that returns [null] or the empty string, the
    result is what [t] returns for ["errStatus.defaultStatusError"]. *)
Theorem unmatched_custom_or_default :
  forall value t customError options s,
  truthy value = true ->
  includes "aborted" (extract_message value) = false ->
  includes "timeout" (extract_message value) = false ->
  (forall c, In c httpStatusCodes ->
             includes (decimal c) (extract_message value) = false) ->
  (forall f w1 msg,
      customError = Some f ->
      f value (host s) = (w1, Normal (Some msg)) ->
      msg <> EmptyString ->
      errorStatus globals (Some value) (Some t) customError options s
      = (mkState w1 (journal s ++ [CalledCustomError value]), Normal msg))
  /\ (forall w r,
      customError = None ->
      t "errStatus.defaultStatusError" (host s) = (w, Normal r) ->
      errorStatus globals (Some value) (Some t) customError options s
      = (mkState w (journal s ++ [CalledT "errStatus.defaultStatusError"]),
         Normal r))
  /\ (forall f w1 answer w r,
      customError = Some f ->
      f value (host s) = (w1, Normal answer) ->
      answer = None \/ answer = Some EmptyString ->
      t "errStatus.defaultStatusError" w1 = (w, Normal r) ->
      errorStatus globals (Some value) (Some t) customError options s
      = (mkState w
           (journal s ++ [CalledCustomError value;
                          CalledT "errStatus.defaultStatusError"]),
         Normal r)).
Proof.
  intros value t customError options s Htruthy Hab Hto Hcodes.
  assert (Hnumber : known_number value = None).
  { destruct (known_number value) as [n|] eqn:Hn; [|reflexivity].
    destruct (known_number_in_message _ _ Hn) as [c [Hc Hin]].
    rewrite (Hcodes c Hc) in Hin. discriminate. }
  assert (Hblock : classify value (Some t) customError s
                   = custom_check value customError s).
  { unfold classify. rewrite Hab, Hto, Hnumber. unfold bind at 1.
    now rewrite (scan_codes_nothing _ _ _ _ Hcodes). }
  split; [|split].
  - intros f w1 msg -> Hf Hne.
    apply errorStatus_block_returned; [assumption|].
    rewrite Hblock. unfold custom_check, bind, call_customError.
    rewrite Hf.
    destruct (String.eqb_spec msg EmptyString); [contradiction|reflexivity].
  - intros w r -> Ht.
    apply (errorStatus_block_fell_through value t None options s s w r);
      [assumption | now rewrite Hblock | assumption].
  - intros f w1 answer w r -> Hf Hanswer Ht.
    rewrite (errorStatus_block_fell_through value t (Some f) options s
               (mkState w1 (journal s ++ [CalledCustomError value])) w r).
    + cbn [journal]. now rewrite <- app_assoc.
    + assumption.
    + rewrite Hblock. unfold custom_check, bind, call_customError.
      rewrite Hf. now destruct Hanswer as [->| ->].
    + assumption.
Qed.

(** C8.  With [null] (or [undefined]) in the holder and a translation
    function that is there, the result is what [t] returns for
    ["errStatus.defaultStatusError"], the only key asked for. *)
Theorem absent_value_default :
  forall t customError options s w r,
  t "errStatus.defaultStatusError" (host s) = (w, Normal r) ->
  errorStatus globals (Some VNull) (Some t) customError options s
  = (mkState w (journal s ++ [CalledT "errStatus.defaultStatusError"]),
     Normal r)
  /\ errorStatus globals (Some VUndefined) (Some t) customError options s
     = (mkState w (journal s ++ [CalledT "errStatus.defaultStatusError"]),
        Normal r).
Proof.
  intros t customError options s w r Ht.
  split; now apply errorStatus_block_skipped.
Qed.

(** C10.  For every falsy error value the whole chain under
    [if (error.value)] is skipped: [t] is asked for
    ["errStatus.defaultStatusError"] and nothing else is called, the custom
    handler included, whatever it would have answered. *)
Theorem falsy_value_skips_custom :
  forall value t customError options s w r,
  truthy value = false ->
  t "errStatus.defaultStatusError" (host s) = (w, Normal r) ->
  errorStatus globals (Some value) (Some t) customError options s
  = (mkState w (journal s ++ [CalledT "errStatus.defaultStatusError"]),
     Normal r).
Proof.
  intros value t customError options s w r Hfalsy Ht.
  now apply errorStatus_block_skipped.
Qed.

End ClassifierFacts.

(** The falsy error values: [null], [undefined], the empty string, and the
    numbers [0], [-0] and [NaN]. *)
Lemma falsy_values : forall value,
  truthy value = false <->
  value = VNull \/ value = VUndefined \/ value = VString EmptyString
  \/ value = VNumber (NInt 0) \/ value = VNumber NNegZero
  \/ value = VNumber NNaN.
Proof.
  intros value. split.
  - destruct value as [| |msg|n|msg]; simpl; try tauto; try discriminate.
    + destruct (String.eqb_spec msg EmptyString); [subst; tauto | discriminate].
    + destruct n as [z| | |neg|repr]; try tauto; try discriminate.
      destruct (Z.eqb_spec z 0); [subst; tauto | discriminate].
  - intros H. repeat (destruct H as [H|H]; [now subst|]). now subst.
Qed.

(** ** The logging gate *)

Lemma isServer_iff : forall g,
  isServer g = true <->
  process g = ProcessObject ServerTrue \/ window_defined g = false.
Proof.
  intros [p w]; unfold isServer; simpl.
  destruct p as [| |[| |]]; destruct w; simpl; split; intros H;
    try reflexivity; try discriminate; try tauto;
    destruct H as [H|H]; discriminate.
Qed.

(** C9.  [logOption] is a function of the options and of the server probe
    alone: [false] unless [debug] is [true] (no options record included);
    [true] when [debug] is [true] and [serverOnly] is not; and the value of
    the server probe when both are [true]. *)
Theorem logOption_gate : forall options g,
  ((forall o, options = Some o -> debug o <> Some true) ->
   logOption options g = false)
  /\ (forall o, options = Some o -> debug o = Some true ->
                serverOnly o <> Some true -> logOption options g = true)
  /\ (forall o, options = Some o -> debug o = Some true ->
                serverOnly o = Some true ->
                logOption options g = isServer g).
Proof.
  intros options g. split; [|split].
  - intros Hdebug. destruct options as [o|]; [|reflexivity].
    specialize (Hdebug o eq_refl). unfold logOption.
    destruct (debug o) as [[|]|]; simpl; congruence.
  - intros o -> Hd Hs. unfold logOption. rewrite Hd. simpl.
    destruct (serverOnly o) as [[|]|]; simpl; congruence.
  - intros o -> Hd Hs. unfold logOption. now rewrite Hd, Hs.
Qed.

(** ** The scenarios of the specification, evaluated *)

Example scenario_aborted_error :
  errorStatus on_browser (Some (VError "Request aborted")) (Some t_key)
              None None start
  = (mkState tt [CalledT "errStatus.abortError"], Normal "errStatus.abortError").
Proof. reflexivity. Qed.

Example scenario_number_404 :
  errorStatus on_browser (Some (VNumber (NInt 404))) (Some t_key) None None start
  = (mkState tt [CalledT "errStatus.404"], Normal "errStatus.404").
Proof. reflexivity. Qed.

Example scenario_string_500 :
  errorStatus on_browser (Some (VString "Something failed with code 500 extra"))
              (Some t_key) None None start
  = (mkState tt [CalledT "errStatus.500"], Normal "errStatus.500").
Proof. reflexivity. Qed.

Example scenario_custom :
  errorStatus on_browser (Some (VError "Custom weirdness")) (Some t_key)
              (Some readme_customError) None start
  = (mkState tt [CalledCustomError (VError "Custom weirdness")],
     Normal "This is a custom error").
Proof. reflexivity. Qed.

(** The scan follows the order of the list, not the order in the message. *)
Example scan_follows_list_order :
  errorStatus on_browser (Some (VString "504 after a 400")) (Some t_key)
              None None start
  = (mkState tt [CalledT "errStatus.400"], Normal "errStatus.400").
Proof. reflexivity. Qed.

(** A fault of [t] on one key is caught and answered with another. *)
Example scenario_translate_faults_once :
  errorStatus on_server (Some (VString "boom"))
              (Some (t_without "errStatus.defaultStatusError")) None
              (Some debug_on_server) start
  = (mkState tt [CalledT "errStatus.defaultStatusError";
                 ConsoleError "Error:" (Some "unknown key");
                 CalledT "errStatus.unexpectedError"],
     Normal "errStatus.unexpectedError").
Proof. reflexivity. Qed.

(** A fault of the custom handler is caught too. *)
Example scenario_custom_faults :
  errorStatus on_browser (Some (VString "boom")) (Some t_key)
              (Some readme_customError) (Some debug_on_server) start
  = (mkState tt [CalledCustomError (VString "boom");
                 CalledT "errStatus.unexpectedError"],
     Normal "errStatus.unexpectedError").
Proof. reflexivity. Qed.

(** With no translation function at all, the call in the [catch] block is
    the one that throws. *)
Example scenario_no_translate :
  errorStatus on_browser None None None (Some debug_everywhere) start
  = (mkState tt [ConsoleWarn "errorStatus: Missing required parameters.";
                 ConsoleError "Error:" (Some "t is not a function")],
     Abrupt (ThrownTypeError "t is not a function")).
Proof. reflexivity. Qed.

(** ** Instances of the theorems *)

(** The [catch] block is not guarded itself: a translation function that
    throws whenever it is called throws again there, and that exception
    reaches the caller of the getter. *)
Lemma faulty_translate_escapes :
  errorStatus on_browser (Some (VString "boom")) (Some t_faulty) None None start
  = (mkState tt [CalledT "errStatus.defaultStatusError";
                 CalledT "errStatus.unexpectedError"],
     Abrupt (ThrownError "translate failed"))
  /\ ~ (exists s' r,
         errorStatus on_browser (Some (VString "boom")) (Some t_faulty)
                     None None start
         = (s', Normal r)).
Proof.
  split; [reflexivity|].
  intros [s' [r H]]. vm_compute in H. discriminate.
Qed.

Lemma missing_holder_missingParameters_witness :
  t_key "errStatus.missingParameters" tt
  = (tt, Normal "errStatus.missingParameters")
  /\ errorStatus on_server None (Some t_key) (Some always_custom)
                 (Some debug_on_server) start
     = (mkState tt [ConsoleWarn "errorStatus: Missing required parameters.";
                    CalledT "errStatus.missingParameters"],
        Normal "errStatus.missingParameters").
Proof.
  split; [reflexivity|].
  exact (missing_holder_missingParameters unit on_server t_key
           (Some always_custom) (Some debug_on_server) start tt
           "errStatus.missingParameters" eq_refl).
Defined.

Lemma string_first_code_wins_witness :
  includes "aborted" "1500ms" = false
  /\ includes "timeout" "1500ms" = false
  /\ httpStatusCodes = ([400; 401; 403; 404; 408; 429] ++ 500 :: [502; 503; 504])%list
  /\ (forall c, In c [400; 401; 403; 404; 408; 429] ->
                includes (decimal c) "1500ms" = false)
  /\ includes (decimal 500) "1500ms" = true
  /\ errorStatus on_browser (Some (VString "1500ms")) (Some t_key)
                 (Some always_custom) None start
     = (mkState tt [CalledT "errStatus.500"], Normal "errStatus.500").
Proof.
  assert (Hbefore : forall c, In c [400; 401; 403; 404; 408; 429] ->
                              includes (decimal c) "1500ms" = false).
  { intros c H. simpl in H.
    repeat (destruct H as [H|H]; [subst c; reflexivity|]). contradiction. }
  split; [reflexivity|]. split; [reflexivity|]. split; [reflexivity|].
  split; [exact Hbefore|]. split; [reflexivity|].
  exact (string_first_code_wins unit on_browser "1500ms"
           [400; 401; 403; 404; 408; 429] 500 [502; 503; 504] t_key
           (Some always_custom) None start tt "errStatus.500"
           eq_refl eq_refl eq_refl Hbefore eq_refl eq_refl).
Defined.

Lemma aborted_string_abortError_witness :
  includes "aborted" "Request aborted with status 500" = true
  /\ errorStatus on_browser (Some (VString "Request aborted with status 500"))
                 (Some t_key) (Some always_custom) None start
     = (mkState tt [CalledT "errStatus.abortError"],
        Normal "errStatus.abortError").
Proof.
  split; [reflexivity|].
  exact (aborted_string_abortError unit on_browser
           "Request aborted with status 500" t_key (Some always_custom) None
           start tt "errStatus.abortError" eq_refl eq_refl).
Defined.

Lemma timeout_string_408_witness :
  includes "timeout" "timeout of 5000ms exceeded" = true
  /\ includes "aborted" "timeout of 5000ms exceeded" = false
  /\ errorStatus on_browser (Some (VString "timeout of 5000ms exceeded"))
                 (Some t_key) None None start
     = (mkState tt [CalledT "errStatus.408"], Normal "errStatus.408").
Proof.
  split; [reflexivity|]. split; [reflexivity|].
  exact (timeout_string_408 unit on_browser "timeout of 5000ms exceeded"
           t_key None None start tt "errStatus.408" eq_refl eq_refl eq_refl).
Defined.

Lemma known_number_code_witness :
  In 429 httpStatusCodes
  /\ errorStatus on_browser (Some (VNumber (NInt 429))) (Some t_key)
                 (Some always_custom) None start
     = (mkState tt [CalledT "errStatus.429"], Normal "errStatus.429").
Proof.
  assert (Hin : In 429 httpStatusCodes) by (simpl; tauto).
  split; [exact Hin|].
  exact (known_number_code unit on_browser 429 t_key (Some always_custom) None
           start tt "errStatus.429" Hin eq_refl).
Defined.

Lemma unmatched_custom_or_default_witness :
  truthy (VError "Custom weirdness") = true
  /\ includes "aborted" "Custom weirdness" = false
  /\ includes "timeout" "Custom weirdness" = false
  /\ (forall c, In c httpStatusCodes ->
                includes (decimal c) "Custom weirdness" = false)
  /\ errorStatus on_browser (Some (VError "Custom weirdness")) (Some t_key)
                 (Some readme_customError) None start
     = (mkState tt [CalledCustomError (VError "Custom weirdness")],
        Normal "This is a custom error")
  /\ errorStatus on_browser (Some (VError "Custom weirdness")) (Some t_key)
                 None None start
     = (mkState tt [CalledT "errStatus.defaultStatusError"],
        Normal "errStatus.defaultStatusError").
Proof.
  assert (Hcodes : forall c, In c httpStatusCodes ->
                             includes (decimal c) "Custom weirdness" = false).
  { intros c H. simpl in H.
    repeat (destruct H as [H|H]; [subst c; reflexivity|]). contradiction. }
  split; [reflexivity|]. split; [reflexivity|]. split; [reflexivity|].
  split; [exact Hcodes|]. split.
  - refine (proj1 (unmatched_custom_or_default unit on_browser
                     (VError "Custom weirdness") t_key
                     (Some readme_customError) None start
                     eq_refl eq_refl eq_refl Hcodes)
                  readme_customError tt "This is a custom error"
                  eq_refl eq_refl _).
    discriminate.
  - exact (proj1 (proj2 (unmatched_custom_or_default unit on_browser
                           (VError "Custom weirdness") t_key None None start
                           eq_refl eq_refl eq_refl Hcodes))
                 tt "errStatus.defaultStatusError" eq_refl eq_refl).
Defined.

Lemma absent_value_default_witness :
  t_key "errStatus.defaultStatusError" tt
  = (tt, Normal "errStatus.defaultStatusError")
  /\ errorStatus on_browser (Some VNull) (Some t_key) None None start
     = (mkState tt [CalledT "errStatus.defaultStatusError"],
        Normal "errStatus.defaultStatusError").
Proof.
  split; [reflexivity|].
  exact (proj1 (absent_value_default unit on_browser t_key None None start tt
                  "errStatus.defaultStatusError" eq_refl)).
Defined.

Lemma logOption_gate_witness :
  debug debug_on_server = Some true
  /\ serverOnly debug_on_server = Some true
  /\ logOption (Some debug_on_server) nuxt_server = isServer nuxt_server
  /\ logOption (Some debug_on_server) browser = isServer browser.
Proof.
  split; [reflexivity|]. split; [reflexivity|]. split.
  - exact (proj2 (proj2 (logOption_gate (Some debug_on_server) nuxt_server))
                 debug_on_server eq_refl eq_refl eq_refl).
  - exact (proj2 (proj2 (logOption_gate (Some debug_on_server) browser))
                 debug_on_server eq_refl eq_refl eq_refl).
Defined.

Lemma falsy_value_skips_custom_witness :
  truthy (VNumber (NInt 0)) = false
  /\ always_custom (VNumber (NInt 0)) tt = (tt, Normal (Some "custom"))
  /\ errorStatus on_browser (Some (VNumber (NInt 0))) (Some t_key)
                 (Some always_custom) None start
     = (mkState tt [CalledT "errStatus.defaultStatusError"],
        Normal "errStatus.defaultStatusError").
Proof.
  split; [reflexivity|]. split; [reflexivity|].
  exact (falsy_value_skips_custom unit on_browser (VNumber (NInt 0)) t_key
           (Some always_custom) None start tt "errStatus.defaultStatusError"
           eq_refl eq_refl).
Defined.

(** ** Beyond the chain: faults, absent callbacks, value kinds *)

Lemma decimal_nonempty : forall z, decimal z <> EmptyString.
Proof.
  intros z. unfold decimal.
  destruct (Z.to_int z) as [d|d]; simpl; [|discriminate].
  destruct d; discriminate.
Qed.

Section Outcomes.

Variable World : Type.
Variable globals : World -> Globals.

Implicit Types (s : State World) (t : Translate World)
         (customError : option (CustomError World))
         (options : option ErrorStatusOptions) (value : ErrorValue).

(** Without a translation function the guard for missing parameters cannot
    deliver its message: calling the absent [t] throws a [TypeError], the
    [catch] block calls it again, and that second [TypeError] reaches the
    caller, whatever the holder, the custom handler and the options are.
    Only the console is written to, when the gate is open. *)
Theorem no_translate_throws :
  forall error customError options s,
  errorStatus globals error None customError options s
  = (mkState (host s)
       (journal s
        ++ (if logOption options (globals (host s))
            then [ConsoleWarn "errorStatus: Missing required parameters.";
                  ConsoleError "Error:" (Some "t is not a function")]
            else [])),
     Abrupt (ThrownTypeError "t is not a function")).
Proof.
  intros error customError options s.
  assert (Hguard : errorStatus_try globals error None customError options
                   = errorStatus_try globals None None customError options)
    by (now destruct error).
  unfold errorStatus. rewrite Hguard. destruct s as [w j].
  unfold try_catch, errorStatus_try, errorStatus_catch, bind, when, logging,
    emit, call_t.
  cbn [host journal].
  destruct (logOption options (globals w)) eqn:Hlog; cbn [host journal].
  - rewrite Hlog. cbn [host journal]. now rewrite <- app_assoc.
  - rewrite Hlog. now rewrite app_nil_r.
Qed.

(** An exception that leaves the getter was thrown by the call
    [t("errStatus.unexpectedError")] of the [catch] block, the last thing
    the evaluation did: no fault of the [try] block reaches the caller. *)
Theorem escaping_exception_origin :
  forall error t customError options s s' e,
  errorStatus globals error (Some t) customError options s = (s', Abrupt e) ->
  exists w before,
    t "errStatus.unexpectedError" w = (host s', Abrupt e)
    /\ journal s' = (before ++ [CalledT "errStatus.unexpectedError"])%list.
Proof.
  intros error t customError options s s' e.
  unfold errorStatus, try_catch.
  destruct (errorStatus_try globals error (Some t) customError options s)
    as [s1 [a|e0]]; [discriminate|].
  unfold errorStatus_catch, bind, when, logging, emit.
  destruct (logOption options (globals (host s1))); unfold call_t;
    cbn [host journal].
  - destruct (t "errStatus.unexpectedError" (host s1)) as [w c] eqn:Ht.
    intros H. injection H as <- ->. cbn [host journal]. eauto.
  - destruct (t "errStatus.unexpectedError" (host s1)) as [w c] eqn:Ht.
    intros H. injection H as <- ->. cbn [host journal]. eauto.
Qed.

(** What [classify] comes to for a message with no special text and no
    status code in it. *)
Lemma classify_unmatched : forall value t customError s,
  includes "aborted" (extract_message value) = false ->
  includes "timeout" (extract_message value) = false ->
  (forall c, In c httpStatusCodes ->
             includes (decimal c) (extract_message value) = false) ->
  classify value (Some t) customError s = custom_check value customError s.
Proof.
  intros value t customError s Hab Hto Hcodes.
  assert (Hnumber : known_number value = None).
  { destruct (known_number value) as [n|] eqn:Hn; [|reflexivity].
    destruct (known_number_in_message _ _ Hn) as [c [Hc Hin]].
    rewrite (Hcodes c Hc) in Hin. discriminate. }
  unfold classify. rewrite Hab, Hto, Hnumber. unfold bind at 1.
  now rewrite (scan_codes_nothing _ _ _ _ _ Hcodes).
Qed.

Lemma custom_fault_caught : forall value t f options s w1 e w r,
  truthy value = true ->
  includes "aborted" (extract_message value) = false ->
  includes "timeout" (extract_message value) = false ->
  (forall c, In c httpStatusCodes ->
             includes (decimal c) (extract_message value) = false) ->
  f value (host s) = (w1, Abrupt e) ->
  t "errStatus.unexpectedError" w1 = (w, Normal r) ->
  errorStatus globals (Some value) (Some t) (Some f) options s
  = (mkState w
       (journal s
        ++ [CalledCustomError value]
        ++ (if logOption options (globals w1)
            then [ConsoleError "Error:" (thrown_message e)] else [])
        ++ [CalledT "errStatus.unexpectedError"]),
     Normal r).
Proof.
  intros value t f options s w1 e w r Htruthy Hab Hto Hcodes Hf Ht.
  unfold errorStatus, try_catch, errorStatus_try.
  rewrite Htruthy. unfold bind at 1.
  rewrite (classify_unmatched _ _ _ _ Hab Hto Hcodes).
  unfold custom_check, bind at 1. unfold call_customError. rewrite Hf.
  unfold errorStatus_catch, bind, when, logging, emit, call_t.
  cbn [host journal].
  destruct (logOption options (globals w1)); cbn [host journal]; rewrite Ht.
  - now rewrite <- !app_assoc.
  - now rewrite <- !app_assoc.
Qed.

(** A custom handler that throws, on a value none of the built-in rules
    matches, does not break the getter: the fault is logged if the gate is
    open and the result is what [t] returns for
    ["errStatus.unexpectedError"]. *)
Theorem custom_fault_unexpectedError :
  forall value t f options s w1 e w r,
  truthy value = true ->
  includes "aborted" (extract_message value) = false ->
  includes "timeout" (extract_message value) = false ->
  (forall c, In c httpStatusCodes ->
             includes (decimal c) (extract_message value) = false) ->
  f value (host s) = (w1, Abrupt e) ->
  t "errStatus.unexpectedError" w1 = (w, Normal r) ->
  errorStatus globals (Some value) (Some t) (Some f) options s
  = (mkState w
       (journal s
        ++ [CalledCustomError value]
        ++ (if logOption options (globals w1)
            then [ConsoleError "Error:" (thrown_message e)] else [])
        ++ [CalledT "errStatus.unexpectedError"]),
     Normal r).
Proof. exact custom_fault_caught. Qed.

(** With no custom handler, an [Error] object is classified exactly as the
    string that is its message, when that message is not empty. *)
Theorem error_object_as_its_message :
  forall msg (t : option (Translate World)) options s,
  msg <> EmptyString ->
  errorStatus globals (Some (VError msg)) t None options s
  = errorStatus globals (Some (VString msg)) t None options s.
Proof.
  intros msg t options s Hne.
  assert (Htruthy : truthy (VString msg) = true)
    by (destruct msg; [contradiction | reflexivity]).
  unfold errorStatus, errorStatus_try.
  destruct t as [t|]; [|reflexivity].
  rewrite Htruthy. reflexivity.
Qed.

(** With no custom handler, a non-zero safe integer is classified exactly
    as the string of its decimal digits: the direct comparison with the
    status codes finds nothing the scan of the rendering would not find. *)
Theorem integer_as_its_digits :
  forall z (t : option (Translate World)) options s,
  z <> 0 ->
  safe_integer z = true ->
  errorStatus globals (Some (VNumber (NInt z))) t None options s
  = errorStatus globals (Some (VString (decimal z))) t None options s.
Proof.
  intros z t options s Hz _.
  assert (Hnum : truthy (VNumber (NInt z)) = true)
    by (simpl; destruct (Z.eqb_spec z 0); [contradiction | reflexivity]).
  assert (Hstr : truthy (VString (decimal z)) = true).
  { simpl. destruct (String.eqb_spec (decimal z) EmptyString) as [H|H];
      [now apply decimal_nonempty in H | reflexivity]. }
  unfold errorStatus, errorStatus_try.
  destruct t as [t|]; [|reflexivity].
  rewrite Hnum, Hstr.
  destruct (known_number (VNumber (NInt z))) as [n|] eqn:Hknown.
  - cbn [known_number] in Hknown.
    destruct (array_includes httpStatusCodes (NInt z)) eqn:Hin; [|discriminate].
    apply existsb_exists in Hin. destruct Hin as [c [Hc Hsame]].
    cbn [same_value_zero] in Hsame. apply Z.eqb_eq in Hsame. subst c.
    apply known_code_cases in Hc.
    repeat (destruct Hc as [Hc|Hc];
            [subst z; unfold try_catch, classify; cbn;
             unfold bind, call_t, ret;
             now destruct (t _ (host s)) as [w [r|e]]|]).
    subst z; unfold try_catch, classify; cbn. unfold bind, call_t, ret.
    now destruct (t _ (host s)) as [w [r|e]].
  - unfold classify. rewrite Hknown. reflexivity.
Qed.

End Outcomes.

(** ** What an evaluation writes to the journal *)

Lemma code_key_required : forall c,
  In c httpStatusCodes -> In ("errStatus." ++ decimal c) required_keys.
Proof.
  intros c H. apply known_code_cases in H.
  repeat (destruct H as [H|H]; [subst c; simpl; tauto|]).
  subst c; simpl; tauto.
Qed.

(** The number the direct test lets through is one of the codes. *)
Lemma known_number_rendering : forall value n,
  known_number value = Some n ->
  exists c, In c httpStatusCodes /\ toString n = decimal c.
Proof.
  intros value n H. destruct value as [| |msg|m|msg]; try discriminate.
  cbn [known_number] in H.
  destruct (array_includes httpStatusCodes m) eqn:Hin; [|discriminate].
  injection H as <-.
  apply existsb_exists in Hin. destruct Hin as [c [Hc Hsame]].
  destruct m as [z| | |neg|repr]; cbn [same_value_zero] in Hsame;
    try discriminate.
  - apply Z.eqb_eq in Hsame. subst z. now exists c.
  - apply Z.eqb_eq in Hsame. subst c.
    apply known_code_cases in Hc.
    repeat (destruct Hc as [Hc|Hc]; [discriminate|]). discriminate.
Qed.

Section Journal.

Variable World : Type.
Variable globals : World -> Globals.
Variable allowed : Event -> Prop.

Implicit Types (s : State World) (t : option (Translate World))
         (customError : option (CustomError World))
         (options : option ErrorStatusOptions) (value : ErrorValue).

Lemma appends_nothing : forall A s (c : Completion A),
  appends allowed s (s, c).
Proof.
  intros A s c. exists []. split; [symmetry; apply app_nil_r | constructor].
Qed.

Lemma appends_one : forall A s w ev (c : Completion A),
  allowed ev ->
  appends allowed s (mkState w (journal s ++ [ev]), c).
Proof.
  intros A s w ev c Hev. exists [ev]. split; [reflexivity|].
  now constructor.
Qed.

Lemma appends_then : forall A B s (out1 : State World * Completion A)
                            (out2 : State World * Completion B),
  appends allowed s out1 ->
  appends allowed (fst out1) out2 ->
  appends allowed s out2.
Proof.
  intros A B s out1 out2 [evs1 [H1 F1]] [evs2 [H2 F2]].
  exists (evs1 ++ evs2)%list. split.
  - now rewrite H2, H1, app_assoc.
  - apply Forall_app. now split.
Qed.

(** A bind whose continuation is only looked at where the first part
    really ended. *)
Lemma appends_bind : forall A B (m : M World A) (k : A -> M World B) s,
  appends allowed s (m s) ->
  (forall s1 a, m s = (s1, Normal a) -> appends allowed s1 (k a s1)) ->
  appends allowed s (bind m k s).
Proof.
  intros A B m k s Hm Hk. unfold bind.
  destruct (m s) as [s1 [a|e]] eqn:Hrun.
  - apply (appends_then _ _ s (s1, @Normal A a)); [exact Hm|].
    now apply Hk.
  - destruct Hm as [evs [H F]]. now exists evs.
Qed.

Lemma emits_bind : forall A B (m : M World A) (k : A -> M World B),
  emits allowed m -> (forall a, emits allowed (k a)) ->
  emits allowed (bind m k).
Proof.
  intros A B m k Hm Hk s. apply appends_bind; [apply Hm|].
  intros s1 a _. apply Hk.
Qed.

Lemma emits_try_catch : forall A (body : M World A) handler,
  emits allowed body -> (forall e, emits allowed (handler e)) ->
  emits allowed (try_catch body handler).
Proof.
  intros A body handler Hbody Hhandler s. unfold try_catch.
  specialize (Hbody s).
  destruct (body s) as [s1 [a|e]] eqn:Hrun.
  - exact Hbody.
  - apply (appends_then _ _ s (s1, @Abrupt A e)); [exact Hbody|].
    apply Hhandler.
Qed.

Lemma emits_ret : forall A (a : A), emits allowed (@ret World A a).
Proof. intros A a s. apply appends_nothing. Qed.

Lemma emits_call_t : forall t key,
  allowed (CalledT key) -> emits allowed (call_t t key).
Proof.
  intros t key Hkey s. unfold call_t. destruct t as [f|].
  - destruct (f key (host s)) as [w c]. now apply appends_one.
  - apply appends_nothing.
Qed.

Lemma emits_call_customError : forall (f : CustomError World) value,
  allowed (CalledCustomError value) ->
  emits allowed (call_customError f value).
Proof.
  intros f value Hev s. unfold call_customError.
  destruct (f value (host s)) as [w c]. now apply appends_one.
Qed.

(** A console line behind the logging gate. *)
Lemma emits_log : forall options ev,
  (forall w, logOption options (globals w) = true -> allowed ev) ->
  emits allowed (when World (logging World globals options) (emit World ev)).
Proof.
  intros options ev Hev s. unfold when, logging, emit.
  destruct (logOption options (globals (host s))) eqn:Hlog.
  - apply appends_one. now apply (Hev (host s)).
  - apply appends_nothing.
Qed.

Lemma scan_codes_emits : forall t msg codes,
  (forall c, In c codes -> allowed (CalledT ("errStatus." ++ decimal c))) ->
  emits allowed (scan_codes t msg codes).
Proof.
  intros t msg codes Hcodes. induction codes as [|c codes IH]; simpl.
  - apply emits_ret.
  - destruct (includes (decimal c) msg).
    + apply emits_bind; [|intros r; apply emits_ret].
      apply emits_call_t. apply Hcodes. now left.
    + apply IH. intros c' Hc'. apply Hcodes. now right.
Qed.

(** When the loop runs to its end, no code occurs in the message. *)
Lemma scan_codes_ran_out : forall t msg codes s s1,
  scan_codes t msg codes s = (s1, Normal None) ->
  forall c, In c codes -> includes (decimal c) msg = false.
Proof.
  intros t msg codes s s1. induction codes as [|c codes IH]; simpl.
  - intros _ c [].
  - destruct (includes (decimal c) msg) eqn:Hc.
    + unfold bind.
      destruct (call_t t _ s) as [s2 [r|e]]; intros H; discriminate H.
    + intros Hrun c' [<-|Hc']; [exact Hc | now apply IH].
Qed.

Lemma custom_check_emits : forall value customError,
  allowed (CalledCustomError value) ->
  emits allowed (custom_check value customError).
Proof.
  intros value customError Hev. unfold custom_check.
  destruct customError as [f|]; [|apply emits_ret].
  apply emits_bind; [now apply emits_call_customError|].
  intros [msg|]; [|apply emits_ret].
  destruct (String.eqb msg EmptyString); apply emits_ret.
Qed.

(** The events of the block under [if (error.value)]: calls of [t] with
    catalogue keys, and a call of the custom handler only when the message
    has no special text and no status code in it. *)
Lemma classify_emits : forall value t customError,
  (forall key, In key required_keys -> allowed (CalledT key)) ->
  (includes "aborted" (extract_message value) = false ->
   includes "timeout" (extract_message value) = false ->
   (forall c, In c httpStatusCodes ->
              includes (decimal c) (extract_message value) = false) ->
   allowed (CalledCustomError value)) ->
  emits allowed (classify value t customError).
Proof.
  intros value t customError Hkeys Hcustom. unfold classify.
  destruct (includes "aborted" (extract_message value)) eqn:Hab.
  { apply emits_bind; [|intros r; apply emits_ret].
    apply emits_call_t, Hkeys. simpl; tauto. }
  destruct (includes "timeout" (extract_message value)) eqn:Hto.
  { apply emits_bind; [|intros r; apply emits_ret].
    apply emits_call_t, Hkeys. simpl; tauto. }
  destruct (known_number value) as [n|] eqn:Hn.
  { apply emits_bind; [|intros r; apply emits_ret].
    apply emits_call_t, Hkeys.
    destruct (known_number_rendering _ _ Hn) as [c [Hc ->]].
    now apply code_key_required. }
  intros s. apply appends_bind.
  - apply scan_codes_emits. intros c Hc. now apply Hkeys, code_key_required.
  - intros s1 [r|] Hrun; [apply emits_ret|].
    apply custom_check_emits, Hcustom; try reflexivity.
    exact (scan_codes_ran_out _ _ _ _ _ Hrun).
Qed.

Lemma errorStatus_emits : forall error t customError options,
  (forall key, In key required_keys -> allowed (CalledT key)) ->
  (forall value,
      error = Some value -> truthy value = true ->
      includes "aborted" (extract_message value) = false ->
      includes "timeout" (extract_message value) = false ->
      (forall c, In c httpStatusCodes ->
                 includes (decimal c) (extract_message value) = false) ->
      allowed (CalledCustomError value)) ->
  (forall ev w, is_console ev = true ->
                logOption options (globals w) = true -> allowed ev) ->
  emits allowed (errorStatus globals error t customError options).
Proof.
  intros error t customError options Hkeys Hcustom Hconsole.
  assert (Hguard : emits allowed
    (bind (when World (logging World globals options)
             (emit World
                (ConsoleWarn "errorStatus: Missing required parameters.")))
          (fun _ => call_t t "errStatus.missingParameters"))).
  { apply emits_bind.
    - apply emits_log. intros w. now apply Hconsole.
    - intros _. apply emits_call_t, Hkeys. simpl; tauto. }
  apply emits_try_catch.
  - unfold errorStatus_try.
    destruct error as [value|]; [|exact Hguard].
    destruct t as [f|]; [|exact Hguard].
    apply emits_bind.
    + destruct (truthy value) eqn:Htruthy; [|apply emits_ret].
      apply classify_emits; [exact Hkeys|]. now apply Hcustom.
    + intros [r|]; [apply emits_ret|].
      apply emits_call_t, Hkeys. simpl; tauto.
  - intros e. unfold errorStatus_catch. apply emits_bind.
    + apply emits_log. intros w. now apply Hconsole.
    + intros _. apply emits_call_t, Hkeys. simpl; tauto.
Qed.

End Journal.

Section JournalFacts.

Variable World : Type.
Variable globals : World -> Globals.

Implicit Types (s : State World) (t : option (Translate World))
         (customError : option (CustomError World))
         (options : option ErrorStatusOptions) (value : ErrorValue).

(** Whatever the inputs are and however the evaluation ends, [t] is only
    ever asked for one of the fourteen keys the README lists. *)
Theorem only_catalogue_keys :
  forall error t customError options s,
  exists evs,
    journal (fst (errorStatus globals error t customError options s))
    = (journal s ++ evs)%list
    /\ Forall (fun ev => forall key, ev = CalledT key -> In key required_keys)
              evs.
Proof.
  intros error t customError options s.
  apply (errorStatus_emits World globals).
  - intros key Hkey key' H. now injection H as <-.
  - intros; discriminate.
  - intros [] w Hconsole; intros; discriminate.
Qed.

(** The custom handler cannot override a built-in rule: it is only ever
    called with the held error value, and only when that value is truthy
    and its message has no special text and no status code in it. *)
Theorem custom_called_only_unmatched :
  forall error t customError options s,
  exists evs,
    journal (fst (errorStatus globals error t customError options s))
    = (journal s ++ evs)%list
    /\ Forall (fun ev => forall v, ev = CalledCustomError v ->
                 error = Some v
                 /\ truthy v = true
                 /\ includes "aborted" (extract_message v) = false
                 /\ includes "timeout" (extract_message v) = false
                 /\ (forall c, In c httpStatusCodes ->
                               includes (decimal c) (extract_message v) = false))
              evs.
Proof.
  intros error t customError options s.
  apply (errorStatus_emits World globals).
  - intros; discriminate.
  - intros value Herror Htruthy Hab Hto Hcodes v H. injection H as <-.
    repeat split; assumption.
  - intros [] w Hconsole; intros; discriminate.
Qed.

(** When the logging gate is closed in every host world (no options,
    [debug] not set, or [serverOnly] on a client), an evaluation writes
    nothing to the console, however it ends. *)
Theorem closed_gate_silent :
  forall error t customError options s,
  (forall w, logOption options (globals w) = false) ->
  exists evs,
    journal (fst (errorStatus globals error t customError options s))
    = (journal s ++ evs)%list
    /\ Forall (fun ev => is_console ev = false) evs.
Proof.
  intros error t customError options s Hclosed.
  apply (errorStatus_emits World globals).
  - reflexivity.
  - reflexivity.
  - intros ev w _ Hopen. rewrite Hclosed in Hopen. discriminate.
Qed.

End JournalFacts.

(** ** Options and the earlier revision *)

Section Blind.

Variable World : Type.
Variable globals : World -> Globals.

Implicit Types (s : State World) (t : option (Translate World))
         (customError : option (CustomError World))
         (options : option ErrorStatusOptions) (value : ErrorValue).

Lemma blind_ret : forall A (a : A), journal_blind (@ret World A a) (ret a).
Proof. intros A a s s' H. now split. Qed.

Lemma blind_bind : forall A B (m m' : M World A) (k k' : A -> M World B),
  journal_blind m m' -> (forall a, journal_blind (k a) (k' a)) ->
  journal_blind (bind m k) (bind m' k').
Proof.
  intros A B m m' k k' Hm Hk s s' Hs. unfold bind.
  destruct (Hm s s' Hs) as [Hhost Hc].
  destruct (m s) as [s1 c1]; destruct (m' s') as [s1' c1'].
  cbn [fst snd] in Hhost, Hc. subst c1'.
  destruct c1 as [a|e]; [now apply Hk | now split].
Qed.

Lemma blind_try_catch : forall A (m m' : M World A) h h',
  journal_blind m m' -> (forall e, journal_blind (h e) (h' e)) ->
  journal_blind (try_catch m h) (try_catch m' h').
Proof.
  intros A m m' h h' Hm Hh s s' Hs. unfold try_catch.
  destruct (Hm s s' Hs) as [Hhost Hc].
  destruct (m s) as [s1 c1]; destruct (m' s') as [s1' c1'].
  cbn [fst snd] in Hhost, Hc. subst c1'.
  destruct c1 as [a|e]; [now split | now apply Hh].
Qed.

Lemma blind_call_t : forall t key, journal_blind (call_t t key) (call_t t key).
Proof.
  intros t key s s' Hs. unfold call_t. destruct t as [f|]; [|now split].
  rewrite <- Hs. destruct (f key (host s)) as [w c]. now split.
Qed.

Lemma blind_call_customError : forall (f : CustomError World) value,
  journal_blind (call_customError f value) (call_customError f value).
Proof.
  intros f value s s' Hs. unfold call_customError.
  rewrite <- Hs. destruct (f value (host s)) as [w c]. now split.
Qed.

(** Two console lines behind two gates, or one of them behind none. *)
Lemma blind_log : forall b b' ev ev',
  journal_blind (when World b (emit World ev)) (when World b' (emit World ev')).
Proof.
  intros b b' ev ev' s s' Hs. unfold when, emit.
  destruct (b s); destruct (b' s'); now split.
Qed.

Lemma blind_log_always : forall b ev ev',
  journal_blind (emit World ev) (when World b (emit World ev')).
Proof.
  intros b ev ev' s s' Hs. unfold when, emit.
  destruct (b s'); now split.
Qed.

Lemma blind_scan_codes : forall t msg codes,
  journal_blind (scan_codes t msg codes) (scan_codes t msg codes).
Proof.
  intros t msg codes. induction codes as [|c codes IH]; simpl.
  - apply blind_ret.
  - destruct (includes (decimal c) msg); [|exact IH].
    apply blind_bind; [apply blind_call_t | intros r; apply blind_ret].
Qed.

Lemma blind_classify : forall value t customError,
  journal_blind (classify value t customError) (classify value t customError).
Proof.
  intros value t customError. unfold classify.
  destruct (includes "aborted" (extract_message value)).
  { apply blind_bind; [apply blind_call_t | intros r; apply blind_ret]. }
  destruct (includes "timeout" (extract_message value)).
  { apply blind_bind; [apply blind_call_t | intros r; apply blind_ret]. }
  destruct (known_number value) as [n|].
  { apply blind_bind; [apply blind_call_t | intros r; apply blind_ret]. }
  apply blind_bind; [apply blind_scan_codes|].
  intros [r|]; [apply blind_ret|].
  unfold custom_check. destruct customError as [f|]; [|apply blind_ret].
  apply blind_bind; [apply blind_call_customError|].
  intros [msg|]; [|apply blind_ret].
  destruct (String.eqb msg EmptyString); apply blind_ret.
Qed.

Lemma blind_chain : forall value t customError,
  journal_blind
    (bind (if truthy value then classify value t customError else ret None)
          (fun returned => match returned with
                           | Some r => ret r
                           | None => call_t t "errStatus.defaultStatusError"
                           end))
    (bind (if truthy value then classify value t customError else ret None)
          (fun returned => match returned with
                           | Some r => ret r
                           | None => call_t t "errStatus.defaultStatusError"
                           end)).
Proof.
  intros value t customError. apply blind_bind.
  - destruct (truthy value); [apply blind_classify | apply blind_ret].
  - intros [r|]; [apply blind_ret | apply blind_call_t].
Qed.

(** The options decide what is written to the console and nothing else:
    under any two option records the getter ends in the same host world
    with the same result, returned or thrown. *)
Theorem options_only_affect_console :
  forall error t customError options options' s,
  host (fst (errorStatus globals error t customError options s))
  = host (fst (errorStatus globals error t customError options' s))
  /\ snd (errorStatus globals error t customError options s)
     = snd (errorStatus globals error t customError options' s).
Proof.
  intros error t customError options options' s.
  assert (Hguard : journal_blind
    (bind (when World (logging World globals options)
             (emit World
                (ConsoleWarn "errorStatus: Missing required parameters.")))
          (fun _ => call_t t "errStatus.missingParameters"))
    (bind (when World (logging World globals options')
             (emit World
                (ConsoleWarn "errorStatus: Missing required parameters.")))
          (fun _ => call_t t "errStatus.missingParameters"))).
  { apply blind_bind; [apply blind_log | intros _; apply blind_call_t]. }
  assert (Hblind : journal_blind
            (errorStatus globals error t customError options)
            (errorStatus globals error t customError options')).
  { apply blind_try_catch.
    - unfold errorStatus_try.
      destruct error as [value|]; [|exact Hguard].
      destruct t as [f|]; [|exact Hguard].
      apply blind_chain.
    - intros e. unfold errorStatus_catch.
      apply blind_bind; [apply blind_log | intros _; apply blind_call_t]. }
  exact (Hblind s s eq_refl).
Qed.

(** The earlier revision, which has no options and always logs, is the
    current getter with [debug] on and [serverOnly] off: same result, same
    host world, same journal. *)
Theorem legacy_is_debug_everywhere :
  forall o error t customError s,
  debug o = Some true ->
  serverOnly o <> Some true ->
  errorStatus globals error t customError (Some o) s
  = errorStatus_legacy error t customError s.
Proof.
  intros o error t customError s Hdebug Hserver.
  assert (Hopen : forall s1, logging World globals (Some o) s1 = true).
  { intros s1. unfold logging, logOption. rewrite Hdebug. simpl.
    destruct (serverOnly o) as [[|]|]; simpl; congruence. }
  assert (Htry : forall s0,
    errorStatus_try globals error t customError (Some o) s0
    = errorStatus_legacy_try World error t customError s0).
  { intros s0. unfold errorStatus_try, errorStatus_legacy_try.
    destruct error as [value|]; [destruct t as [f|]; [reflexivity|]|];
      unfold bind, when; now rewrite Hopen. }
  unfold errorStatus, errorStatus_legacy, try_catch. rewrite Htry.
  destruct (errorStatus_legacy_try World error t customError s)
    as [s1 [a|e]]; [reflexivity|].
  unfold errorStatus_catch, errorStatus_legacy_catch, bind, when.
  now rewrite Hopen.
Qed.

End Blind.

(** The custom handler of the README reads [err.message.includes]: for a
    string error none of the built-in rules matches it throws, so the
    result is what [t] returns for ["errStatus.unexpectedError"], not the
    default message. *)
Theorem readme_handler_faults_on_strings :
  forall (globals : unit -> Globals) msg (t : Translate unit) options s w r,
  msg <> EmptyString ->
  includes "aborted" msg = false ->
  includes "timeout" msg = false ->
  (forall c, In c httpStatusCodes -> includes (decimal c) msg = false) ->
  t "errStatus.unexpectedError" tt = (w, Normal r) ->
  errorStatus globals (Some (VString msg)) (Some t) (Some readme_customError)
              options s
  = (mkState w
       (journal s
        ++ [CalledCustomError (VString msg)]
        ++ (if logOption options (globals tt)
            then [ConsoleError "Error:"
                    (Some "Cannot read properties of undefined (reading 'includes')")]
            else [])
        ++ [CalledT "errStatus.unexpectedError"]),
     Normal r).
Proof.
  intros globals msg t options s w r Hne Hab Hto Hcodes Ht.
  assert (Hstr : String.eqb msg EmptyString = false)
    by (destruct msg; [contradiction | reflexivity]).
  apply (custom_fault_caught unit globals (VString msg) t readme_customError
           options s tt
           (ThrownTypeError
              "Cannot read properties of undefined (reading 'includes')")
           w r);
    try assumption.
  - simpl. now rewrite Hstr.
  - simpl. rewrite Hstr. now destruct (host s).
Qed.

(** In a server context [serverOnly] makes no difference to the gate. *)
Theorem server_context_ignores_serverOnly :
  forall d so so' g,
  isServer g = true ->
  logOption (Some (mkOptions d so)) g = logOption (Some (mkOptions d so')) g.
Proof.
  intros d so so' g Hserver. unfold logOption. cbn [debug serverOnly].
  rewrite Hserver.
  destruct (flag_set d); simpl; [|reflexivity].
  now destruct (flag_set so); destruct (flag_set so').
Qed.

(** ** Further instances *)

Lemma escaping_exception_origin_witness :
  errorStatus on_browser (Some (VString "boom")) (Some t_faulty) None None start
  = (mkState tt [CalledT "errStatus.defaultStatusError";
                 CalledT "errStatus.unexpectedError"],
     Abrupt (ThrownError "translate failed"))
  /\ exists w before,
      t_faulty "errStatus.unexpectedError" w
      = (tt, Abrupt (ThrownError "translate failed"))
      /\ [CalledT "errStatus.defaultStatusError";
          CalledT "errStatus.unexpectedError"]
         = (before ++ [CalledT "errStatus.unexpectedError"])%list.
Proof.
  split; [reflexivity|].
  exact (escaping_exception_origin unit on_browser (Some (VString "boom"))
           t_faulty None None start
           (mkState tt [CalledT "errStatus.defaultStatusError";
                        CalledT "errStatus.unexpectedError"])
           (ThrownError "translate failed") eq_refl).
Defined.

Lemma custom_fault_unexpectedError_witness :
  truthy (VString "boom") = true
  /\ includes "aborted" "boom" = false
  /\ includes "timeout" "boom" = false
  /\ (forall c, In c httpStatusCodes -> includes (decimal c) "boom" = false)
  /\ readme_customError (VString "boom") tt
     = (tt, Abrupt
              (ThrownTypeError
                 "Cannot read properties of undefined (reading 'includes')"))
  /\ errorStatus on_server (Some (VString "boom")) (Some t_key)
                 (Some readme_customError) (Some debug_on_server) start
     = (mkState tt
          [CalledCustomError (VString "boom");
           ConsoleError "Error:"
             (Some "Cannot read properties of undefined (reading 'includes')");
           CalledT "errStatus.unexpectedError"],
        Normal "errStatus.unexpectedError").
Proof.
  assert (Hcodes : forall c, In c httpStatusCodes ->
                             includes (decimal c) "boom" = false).
  { intros c H. simpl in H.
    repeat (destruct H as [H|H]; [subst c; reflexivity|]). contradiction. }
  split; [reflexivity|]. split; [reflexivity|]. split; [reflexivity|].
  split; [exact Hcodes|]. split; [reflexivity|].
  exact (custom_fault_unexpectedError unit on_server (VString "boom") t_key
           readme_customError (Some debug_on_server) start tt
           (ThrownTypeError
              "Cannot read properties of undefined (reading 'includes')")
           tt
           "errStatus.unexpectedError"
           eq_refl eq_refl eq_refl Hcodes eq_refl eq_refl).
Defined.

Lemma error_object_as_its_message_witness :
  "404 Not Found" <> EmptyString
  /\ errorStatus on_browser (Some (VError "404 Not Found")) (Some t_key)
                 None None start
     = errorStatus on_browser (Some (VString "404 Not Found")) (Some t_key)
                   None None start.
Proof.
  assert (Hne : "404 Not Found" <> EmptyString) by discriminate.
  split; [exact Hne|].
  exact (error_object_as_its_message unit on_browser "404 Not Found"
           (Some t_key) None start Hne).
Defined.

Lemma integer_as_its_digits_witness :
  1500 <> 0
  /\ safe_integer 1500 = true
  /\ errorStatus on_browser (Some (VNumber (NInt 1500))) (Some t_key)
                 None None start
     = errorStatus on_browser (Some (VString "1500")) (Some t_key)
                   None None start.
Proof.
  assert (Hne : 1500 <> 0) by discriminate.
  split; [exact Hne|]. split; [reflexivity|].
  exact (integer_as_its_digits unit on_browser 1500 (Some t_key) None start
           Hne eq_refl).
Defined.

Lemma closed_gate_silent_witness :
  (forall w, logOption (Some debug_on_server) (on_browser w) = false)
  /\ exists evs,
      journal (fst (errorStatus on_browser None (Some t_faulty) None
                                (Some debug_on_server) start))
      = (journal start ++ evs)%list
      /\ Forall (fun ev => is_console ev = false) evs.
Proof.
  assert (Hclosed : forall w : unit,
             logOption (Some debug_on_server) (on_browser w) = false)
    by (intros w; reflexivity).
  split; [exact Hclosed|].
  exact (closed_gate_silent unit on_browser None (Some t_faulty) None
           (Some debug_on_server) start Hclosed).
Defined.

Lemma legacy_is_debug_everywhere_witness :
  debug debug_everywhere = Some true
  /\ serverOnly debug_everywhere <> Some true
  /\ errorStatus on_browser None (Some t_key) None (Some debug_everywhere) start
     = errorStatus_legacy None (Some t_key) None start.
Proof.
  assert (Hserver : serverOnly debug_everywhere <> Some true) by discriminate.
  split; [reflexivity|]. split; [exact Hserver|].
  exact (legacy_is_debug_everywhere unit on_browser debug_everywhere None
           (Some t_key) None start eq_refl Hserver).
Defined.

Lemma readme_handler_faults_on_strings_witness :
  "boom" <> EmptyString
  /\ includes "aborted" "boom" = false
  /\ includes "timeout" "boom" = false
  /\ (forall c, In c httpStatusCodes -> includes (decimal c) "boom" = false)
  /\ errorStatus on_browser (Some (VString "boom")) (Some t_key)
                 (Some readme_customError) None start
     = (mkState tt [CalledCustomError (VString "boom");
                    CalledT "errStatus.unexpectedError"],
        Normal "errStatus.unexpectedError").
Proof.
  assert (Hne : "boom" <> EmptyString) by discriminate.
  assert (Hcodes : forall c, In c httpStatusCodes ->
                             includes (decimal c) "boom" = false).
  { intros c H. simpl in H.
    repeat (destruct H as [H|H]; [subst c; reflexivity|]). contradiction. }
  split; [exact Hne|]. split; [reflexivity|]. split; [reflexivity|].
  split; [exact Hcodes|].
  exact (readme_handler_faults_on_strings on_browser "boom" t_key None start
           tt "errStatus.unexpectedError" Hne eq_refl eq_refl Hcodes eq_refl).
Defined.

Lemma server_context_ignores_serverOnly_witness :
  isServer nuxt_server = true
  /\ logOption (Some (mkOptions (Some true) (Some true))) nuxt_server
     = logOption (Some (mkOptions (Some true) None)) nuxt_server.
Proof.
  split; [reflexivity|].
  exact (server_context_ignores_serverOnly (Some true) (Some true) None
           nuxt_server eq_refl).
Defined.

(** ** Faults inside the [try] block *)

Section Faults.

Variable World : Type.
Variable globals : World -> Globals.

Implicit Types (s : State World) (t : Translate World)
         (customError : option (CustomError World))
         (options : option ErrorStatusOptions) (value : ErrorValue).

(** The outcome of an evaluation whose [try] block threw [e] in the host
    world [w1] after the events [before]: the console line if the gate is
    open, then the call of [t] in the [catch] block, which ends in the host
    world [w] with the completion [c]. *)
Local Abbreviation caught s options before w1 e w c :=
  (mkState w
     (journal s ++ before
      ++ (if logOption options (globals w1)
          then [ConsoleError "Error:" (thrown_message e)] else [])
      ++ [CalledT "errStatus.unexpectedError"]),
   c).

Lemma call_t_faults : forall t key s w1 e,
  t key (host s) = (w1, Abrupt e) ->
  call_t (Some t) key s = (mkState w1 (journal s ++ [CalledT key]), Abrupt e).
Proof.
  intros t key s w1 e H. unfold call_t. now rewrite H.
Qed.

Lemma call_t_then_some_faults : forall t key s w1 e,
  t key (host s) = (w1, Abrupt e) ->
  bind (call_t (Some t) key) (fun r => ret (Some r)) s
  = (mkState w1 (journal s ++ [CalledT key]), Abrupt e).
Proof.
  intros t key s w1 e H. unfold bind. now rewrite (call_t_faults _ _ _ _ _ H).
Qed.

(** The [catch] block after a fault of the [try] block. *)
Lemma try_fault_caught :
  forall error t customError options s before w1 e w c,
  errorStatus_try globals error (Some t) customError options s
  = (mkState w1 (journal s ++ before), Abrupt e) ->
  t "errStatus.unexpectedError" w1 = (w, c) ->
  errorStatus globals error (Some t) customError options s
  = caught s options before w1 e w c.
Proof.
  intros error t customError options s before w1 e w c Htry Ht.
  unfold errorStatus, try_catch. rewrite Htry.
  unfold errorStatus_catch, bind, when, logging, emit, call_t.
  cbn [host journal].
  destruct (logOption options (globals w1)); cbn [host journal]; rewrite Ht.
  - destruct c; now rewrite <- !app_assoc.
  - destruct c; now rewrite <- !app_assoc.
Qed.

(** How a fault gets out of the chain under [if (error.value)]. *)
Lemma block_fault : forall value t customError options s s1 e,
  truthy value = true ->
  classify value (Some t) customError s = (s1, Abrupt e) ->
  errorStatus_try globals (Some value) (Some t) customError options s
  = (s1, Abrupt e).
Proof.
  intros value t customError options s s1 e Htruthy Hblock.
  unfold errorStatus_try, bind. now rewrite Htruthy, Hblock.
Qed.

Lemma default_fault : forall value t customError options s s0 w1 e,
  (if truthy value then classify value (Some t) customError else ret None) s
  = (s0, Normal None) ->
  t "errStatus.defaultStatusError" (host s0) = (w1, Abrupt e) ->
  errorStatus_try globals (Some value) (Some t) customError options s
  = (mkState w1 (journal s0 ++ [CalledT "errStatus.defaultStatusError"]),
     Abrupt e).
Proof.
  intros value t customError options s s0 w1 e Hblock Ht.
  unfold errorStatus_try, bind. rewrite Hblock.
  now apply call_t_faults.
Qed.

(** C1 (as amended).  With a translation function that is there, every
    fault raised by a call the [try] block makes is caught: the call of
    [t] for the missing-parameters message, for the abort message, for
    ["errStatus.408"], for a status code found by the direct test or by the
    scan, for the default message, and the call of the custom handler.
    The fault is logged if the gate is open, and the evaluation then ends
    as the call [t("errStatus.unexpectedError")] of the [catch] block ends:
    with the message it returns, or, since that call is not guarded, with
    the fault it raises.  So when [t] returns for that key in every host
    world, no evaluation throws. *)
Theorem errorStatus_catches_faults :
  forall t customError options s,
  ((forall w0, exists w' r,
       t "errStatus.unexpectedError" w0 = (w', Normal r)) ->
   forall error, exists s' r,
     errorStatus globals error (Some t) customError options s
     = (s', Normal r))
  /\ (forall w1 e w c,
      t "errStatus.unexpectedError" w1 = (w, c) ->
      (t "errStatus.missingParameters" (host s) = (w1, Abrupt e) ->
       errorStatus globals None (Some t) customError options s
       = caught s options
           ((if logOption options (globals (host s))
             then [ConsoleWarn "errorStatus: Missing required parameters."]
             else [])
            ++ [CalledT "errStatus.missingParameters"]) w1 e w c)
      /\ (forall value,
          truthy value = false ->
          t "errStatus.defaultStatusError" (host s) = (w1, Abrupt e) ->
          errorStatus globals (Some value) (Some t) customError options s
          = caught s options [CalledT "errStatus.defaultStatusError"]
                   w1 e w c)
      /\ (forall value,
          truthy value = true ->
          includes "aborted" (extract_message value) = true ->
          t "errStatus.abortError" (host s) = (w1, Abrupt e) ->
          errorStatus globals (Some value) (Some t) customError options s
          = caught s options [CalledT "errStatus.abortError"] w1 e w c)
      /\ (forall value,
          truthy value = true ->
          includes "aborted" (extract_message value) = false ->
          includes "timeout" (extract_message value) = true ->
          t "errStatus.408" (host s) = (w1, Abrupt e) ->
          errorStatus globals (Some value) (Some t) customError options s
          = caught s options [CalledT "errStatus.408"] w1 e w c)
      /\ (forall value n,
          truthy value = true ->
          includes "aborted" (extract_message value) = false ->
          includes "timeout" (extract_message value) = false ->
          known_number value = Some n ->
          t ("errStatus." ++ toString n) (host s) = (w1, Abrupt e) ->
          errorStatus globals (Some value) (Some t) customError options s
          = caught s options [CalledT ("errStatus." ++ toString n)]
                   w1 e w c)
      /\ (forall value before code rest,
          truthy value = true ->
          includes "aborted" (extract_message value) = false ->
          includes "timeout" (extract_message value) = false ->
          known_number value = None ->
          httpStatusCodes = (before ++ code :: rest)%list ->
          (forall c', In c' before ->
                      includes (decimal c') (extract_message value) = false) ->
          includes (decimal code) (extract_message value) = true ->
          t ("errStatus." ++ decimal code) (host s) = (w1, Abrupt e) ->
          errorStatus globals (Some value) (Some t) customError options s
          = caught s options [CalledT ("errStatus." ++ decimal code)]
                   w1 e w c)
      /\ (forall value,
          truthy value = true ->
          includes "aborted" (extract_message value) = false ->
          includes "timeout" (extract_message value) = false ->
          (forall c', In c' httpStatusCodes ->
                      includes (decimal c') (extract_message value) = false) ->
          (customError = None ->
           t "errStatus.defaultStatusError" (host s) = (w1, Abrupt e) ->
           errorStatus globals (Some value) (Some t) customError options s
           = caught s options [CalledT "errStatus.defaultStatusError"]
                    w1 e w c)
          /\ (forall f,
              customError = Some f ->
              f value (host s) = (w1, Abrupt e) ->
              errorStatus globals (Some value) (Some t) customError options s
              = caught s options [CalledCustomError value] w1 e w c)
          /\ (forall f w0 answer,
              customError = Some f ->
              f value (host s) = (w0, Normal answer) ->
              answer = None \/ answer = Some EmptyString ->
              t "errStatus.defaultStatusError" w0 = (w1, Abrupt e) ->
              errorStatus globals (Some value) (Some t) customError options s
              = caught s options
                  [CalledCustomError value;
                   CalledT "errStatus.defaultStatusError"] w1 e w c))).
Proof.
  intros t customError options s. split.
  { intros Htotal error. unfold errorStatus, try_catch.
    destruct (errorStatus_try globals error (Some t) customError options s)
      as [s1 [a|e]]; [now exists s1, a|].
    destruct (Htotal (host s1)) as [w' [r Ht]].
    unfold errorStatus_catch, bind, when, logging, emit, call_t.
    destruct (logOption options (globals (host s1))); cbn [host journal];
      rewrite Ht; eauto. }
  intros w1 e w c Hu.
  split; [|split; [|split; [|split; [|split; [|split]]]]].
  - intros Ht.
    apply (try_fault_caught None t customError options s _ w1 e w c);
      [|exact Hu].
    unfold errorStatus_try, bind, when, logging, emit.
    destruct (logOption options (globals (host s))).
    + rewrite (call_t_faults t _ _ w1 e) by exact Ht.
      cbn [journal]. now rewrite <- app_assoc.
    + now rewrite (call_t_faults t _ _ w1 e) by exact Ht.
  - intros value Hfalsy Ht.
    apply try_fault_caught; [|exact Hu].
    apply (default_fault value t customError options s s); [|exact Ht].
    now rewrite Hfalsy.
  - intros value Htruthy Hab Ht.
    apply try_fault_caught; [|exact Hu].
    apply block_fault; [exact Htruthy|].
    unfold classify. rewrite Hab. now apply call_t_then_some_faults.
  - intros value Htruthy Hab Hto Ht.
    apply try_fault_caught; [|exact Hu].
    apply block_fault; [exact Htruthy|].
    unfold classify. rewrite Hab, Hto. now apply call_t_then_some_faults.
  - intros value n Htruthy Hab Hto Hn Ht.
    apply try_fault_caught; [|exact Hu].
    apply block_fault; [exact Htruthy|].
    unfold classify. rewrite Hab, Hto, Hn.
    now apply call_t_then_some_faults.
  - intros value before code rest Htruthy Hab Hto Hn Hsplit Hbefore Hcode Ht.
    apply try_fault_caught; [|exact Hu].
    apply block_fault; [exact Htruthy|].
    unfold classify. rewrite Hab, Hto, Hn. unfold bind at 1.
    rewrite Hsplit, (scan_codes_first _ _ _ _ _ _ _ Hbefore Hcode).
    now rewrite (call_t_then_some_faults _ _ _ _ _ Ht).
  - intros value Htruthy Hab Hto Hcodes.
    assert (Hblock : forall s0,
               classify value (Some t) customError s0
               = custom_check value customError s0)
      by (intros s0; now apply classify_unmatched).
    split; [|split].
    + intros -> Ht.
      apply try_fault_caught; [|exact Hu].
      apply (default_fault value t None options s s); [|exact Ht].
      now rewrite Htruthy, Hblock.
    + intros f -> Hf.
      apply try_fault_caught; [|exact Hu].
      apply block_fault; [exact Htruthy|].
      rewrite Hblock. unfold custom_check, bind, call_customError.
      now rewrite Hf.
    + intros f w0 answer -> Hf Hanswer Ht.
      apply (try_fault_caught (Some value) t (Some f) options s
               [CalledCustomError value;
                CalledT "errStatus.defaultStatusError"] w1 e w c);
        [|exact Hu].
      rewrite (default_fault value t (Some f) options s
                 (mkState w0 (journal s ++ [CalledCustomError value])) w1 e).
      * cbn [journal]. now rewrite <- app_assoc.
      * rewrite Htruthy, Hblock.
        unfold custom_check, bind, call_customError. rewrite Hf.
        now destruct Hanswer as [->| ->].
      * exact Ht.
Qed.

End Faults.

Lemma errorStatus_catches_faults_witness :
  (forall w0, exists w' r,
      t_without "errStatus.defaultStatusError" "errStatus.unexpectedError" w0
      = (w', Normal r))
  /\ (exists s' r,
      errorStatus on_server (Some (VString "boom"))
                  (Some (t_without "errStatus.defaultStatusError"))
                  (Some readme_customError) (Some debug_on_server) start
      = (s', Normal r))
  /\ errorStatus on_server (Some VNull)
                 (Some (t_without "errStatus.defaultStatusError"))
                 (Some readme_customError) (Some debug_on_server) start
     = (mkState tt [CalledT "errStatus.defaultStatusError";
                    ConsoleError "Error:" (Some "unknown key");
                    CalledT "errStatus.unexpectedError"],
        Normal "errStatus.unexpectedError")
  /\ errorStatus on_server (Some (VString "boom"))
                 (Some (t_without "errStatus.defaultStatusError"))
                 (Some readme_customError) (Some debug_on_server) start
     = (mkState tt
          [CalledCustomError (VString "boom");
           ConsoleError "Error:"
             (Some "Cannot read properties of undefined (reading 'includes')");
           CalledT "errStatus.unexpectedError"],
        Normal "errStatus.unexpectedError")
  /\ errorStatus on_browser (Some (VError "Request aborted")) (Some t_faulty)
                 (Some always_custom) None start
     = (mkState tt [CalledT "errStatus.abortError";
                    CalledT "errStatus.unexpectedError"],
        Abrupt (ThrownError "translate failed")).
Proof.
  assert (Htotal : forall w0 : unit, exists w' r,
    t_without "errStatus.defaultStatusError" "errStatus.unexpectedError" w0
    = (w', Normal r))
    by (intros w0; exists w0, "errStatus.unexpectedError"; reflexivity).
  assert (Hcodes : forall c, In c httpStatusCodes ->
                             includes (decimal c) "boom" = false).
  { intros c H. simpl in H.
    repeat (destruct H as [H|H]; [subst c; reflexivity|]). contradiction. }
  pose proof (errorStatus_catches_faults unit on_server
                (t_without "errStatus.defaultStatusError")
                (Some readme_customError) (Some debug_on_server) start)
    as [Hnever Hcaught].
  split; [exact Htotal|]. split; [|split; [|split]].
  - exact (Hnever Htotal (Some (VString "boom"))).
  - destruct (Hcaught tt (ThrownError "unknown key") tt
                (Normal "errStatus.unexpectedError") eq_refl)
      as [_ [Hfalsy _]].
    exact (Hfalsy VNull eq_refl eq_refl).
  - destruct (Hcaught tt
                (ThrownTypeError
                   "Cannot read properties of undefined (reading 'includes')")
                tt (Normal "errStatus.unexpectedError") eq_refl)
      as [_ [_ [_ [_ [_ [_ Hunmatched]]]]]].
    destruct (Hunmatched (VString "boom") eq_refl eq_refl eq_refl Hcodes)
      as [_ [Hcustom _]].
    exact (Hcustom readme_customError eq_refl eq_refl).
  - destruct (proj2 (errorStatus_catches_faults unit on_browser t_faulty
                       (Some always_custom) None start)
                    tt (ThrownError "translate failed") tt
                    (Abrupt (ThrownError "translate failed")) eq_refl)
      as [_ [_ [Haborted _]]].
    exact (Haborted (VError "Request aborted") eq_refl eq_refl eq_refl).
Defined.
